(** * VeryComplicatedClass of _black.py: the configuration transformer

    A shallow embedding of [VeryComplicatedClass] ([__init__],
    [_internal_helper], [_another_internal_helper], [process_config]).

    Python [str] is modelled as a Rocq [string] (ASCII characters), Python
    [int] as [Z] (unbounded; [bool] is a subclass of [int] in Python and is
    represented by its integer value), Python [float] as a primitive binary64
    [float], Python dicts as association lists whose writes follow
    [dict.__setitem__] (overwrite in place, otherwise append). *)

From Stdlib Require Import ZArith Ascii String List Bool Lia Permutation Sorted Floats.
From stdpp Require Import base list.
Import ListNotations.
Open Scope string_scope.
Open Scope list_scope.
Set Warnings "-register-all,-inexact-float".

(** ** Python string methods on ASCII strings *)

Definition ascii_lower (c : ascii) : ascii :=
  let n := nat_of_ascii c in
  if (65 <=? n)%nat && (n <=? 90)%nat then ascii_of_nat (n + 32) else c.

Definition ascii_upper (c : ascii) : ascii :=
  let n := nat_of_ascii c in
  if (97 <=? n)%nat && (n <=? 122)%nat then ascii_of_nat (n - 32) else c.

Fixpoint str_map (f : ascii -> ascii) (s : string) : string :=
  match s with
  | EmptyString => EmptyString
  | String c r => String (f c) (str_map f r)
  end.

(** [str.lower] *)
Definition lower (s : string) : string := str_map ascii_lower s.

(** [str.upper] *)
Definition upper (s : string) : string := str_map ascii_upper s.

(** [str.capitalize]: first character upper-cased, the rest lower-cased. *)
Definition capitalize (s : string) : string :=
  match s with
  | EmptyString => EmptyString
  | String c r => String (ascii_upper c) (lower r)
  end.

(** [pat in s] for strings: [pat] occurs at some position of [s]. *)
Fixpoint str_contains (pat s : string) : bool :=
  String.prefix pat s
  || match s with
     | EmptyString => false
     | String _ r => str_contains pat r
     end.

(** [s[::-1]] *)
Definition str_reverse (s : string) : string :=
  string_of_list_ascii (rev (list_ascii_of_string s)).

(** ** The two helpers *)

(** [_internal_helper(self, key, value)] *)
Definition _internal_helper (key : string) (value : Z) : Z :=
  if String.eqb key "multiply" then
    if (value >? 10)%Z then (value * 2)%Z else (value * 3)%Z
  else if String.eqb key "add" then
    if (value <? 0)%Z then
      if (Z.abs value >? 100)%Z then (value + 200)%Z else (value + 50)%Z
    else (value + 10)%Z
  else value.

(** [_another_internal_helper(self, text)] *)
Definition _another_internal_helper (text : string) : string :=
  if str_contains "error" (lower text) then upper text
  else if str_contains "success" (lower text) then capitalize text
  else str_reverse text.

(** ** Values and dictionaries *)

(** The runtime shapes [process_config] distinguishes: [str], [int],
    [float], [list], [dict], and every other object (sets, tuples, [None],
    ...), which is represented by an opaque tag. *)
Inductive value : Type :=
| VStr (s : string)
| VInt (z : Z)
| VFloat (f : float)
| VList (l : list value)
| VDict (d : list (string * value))
| VOther (tag : nat).

(** [d[k] = v]: an existing key is overwritten in place, a new key is appended. *)
Fixpoint dict_set {A : Type} (d : list (string * A)) (k : string) (v : A)
    : list (string * A) :=
  match d with
  | [] => [(k, v)]
  | (k', v') :: r => if String.eqb k k' then (k, v) :: r else (k', v') :: dict_set r k v
  end.

(** [d.get(k)] *)
Fixpoint dict_get {A : Type} (d : list (string * A)) (k : string) : option A :=
  match d with
  | [] => None
  | (k', v') :: r => if String.eqb k k' then Some v' else dict_get r k
  end.

(** ** The branches of [process_config] *)

(** One element of [[elem * 2 for elem in list_val if isinstance(elem, (int, float))]]. *)
Definition long_list_elem (elem : value) : list value :=
  match elem with
  | VInt z => [VInt (z * 2)%Z]
  | VFloat f => [VFloat (f * 2)%float]
  | _ => []
  end.

(** The list comprehension of the [len(list_val) > 5] branch. *)
Definition long_list_branch (list_val : list value) : list value :=
  flat_map long_list_elem list_val.

(** The body of [for elem in list_val] in the [len(list_val) <= 5] branch. *)
Definition short_list_elem (elem : value) : value :=
  match elem with
  | VInt z => VInt (_internal_helper "multiply" z)
  | VStr s => VStr (_another_internal_helper s)
  | _ => elem
  end.

(** [new_list = []; for elem in list_val: new_list.append(...)] *)
Definition short_list_branch (list_val : list value) : list value :=
  fold_left (fun new_list elem => app new_list [short_list_elem elem]) list_val [].

(** The body of [for d_key, d_value in dict_val.items()]. *)
Definition dict_elem (d_value : value) : value :=
  match d_value with
  | VInt z => VInt (_internal_helper "add" z)
  | VStr s => VStr (_another_internal_helper s)
  | _ => d_value
  end.

(** [nested_result = {}; for d_key, d_value in ...: nested_result[d_key] = ...] *)
Definition dict_branch (dict_val : list (string * value)) : list (string * value) :=
  fold_left (fun nested_result '(d_key, d_value) =>
               dict_set nested_result d_key (dict_elem d_value)) dict_val [].

(** The [match value:] statement for one entry [key, value]: the value
    stored into [internal_state[key]]. *)
Definition process_value (key : string) (v : value) : value :=
  match v with
  | VStr string_val => VStr (_another_internal_helper string_val)
  | VInt int_val => VInt (_internal_helper key int_val)
  | VList list_val =>
      if (5 <? length list_val)%nat then VList (long_list_branch list_val)
      else VList (short_list_branch list_val)
  | VDict dict_val => VDict (dict_branch dict_val)
  | _ => v
  end.

(** ** The object *)

Record VeryComplicatedClass : Type := mkVCC {
  config : list (string * value);
  internal_state : list (string * value)
}.

(** [__init__(self, config)] *)
Definition init (c : list (string * value)) : VeryComplicatedClass :=
  mkVCC c [].

(** The loop of [process_config], from a given accumulator. *)
Definition process_entries (acc : list (string * value)) (entries : list (string * value))
    : list (string * value) :=
  fold_left (fun st '(key, v) => dict_set st key (process_value key v)) entries acc.

(** [process_config(self)]: writes into [self.internal_state]; [self.config] is
    only read. *)
Definition process_config (self : VeryComplicatedClass) : VeryComplicatedClass :=
  mkVCC (config self) (process_entries (internal_state self) (config self)).

(** [obj.config = c]: the public attribute reassigned by a caller. *)
Definition set_config (self : VeryComplicatedClass) (c : list (string * value))
    : VeryComplicatedClass :=
  mkVCC c (internal_state self).

(** The whole transformation on a fresh object:
    [o = VeryComplicatedClass(c); o.process_config(); o.internal_state]. *)
Definition transform (c : list (string * value)) : list (string * value) :=
  internal_state (process_config (init c)).

(** The configuration of [example1]. *)
Definition complex_config : list (string * value) :=
  [("multiply", VInt 12); ("add", VInt (-20));
   ("textData", VStr "This might be an error message");
   ("listData", VList [VInt 5; VStr "hello"; VFloat 3.14; VInt (-2); VInt 10]);
   ("anotherList", VList (map VInt [1; 2; 3; 4; 5; 6; 7]%Z));
   ("nestedDict", VDict [("innerInt", VInt 5); ("innerText", VStr "SUCCESS CASE");
                         ("ignored", VFloat 3.1415)]);
   ("unhandledType", VOther 0)].

(** ** Readings of the spec *)

(** The text rule as the spec words it: upper-case on "error", first
    character capitalised and the rest lower-cased on "success", otherwise
    the reversal. *)
Definition transformText_spec (s : string) : string :=
  if str_contains "error" (lower s) then upper s
  else if str_contains "success" (lower s) then
    match s with
    | EmptyString => EmptyString
    | String c r => String (ascii_upper c) (lower r)
    end
  else str_reverse s.

(** The numeric rule as the spec words it. *)
Definition transformNumber_spec (opSelector : string) (v : Z) : Z :=
  if String.eqb opSelector "multiply" then (if (10 <? v)%Z then 2 * v else 3 * v)%Z
  else if String.eqb opSelector "add" then
    (if (v <? 0)%Z then (if (100 <? Z.abs v)%Z then v + 200 else v + 50) else v + 10)%Z
  else v.

Definition is_numeric (v : value) : bool :=
  match v with VInt _ | VFloat _ => true | _ => false end.

Definition times2 (v : value) : value :=
  match v with
  | VInt z => VInt (z * 2)%Z
  | VFloat f => VFloat (f * 2)%float
  | _ => v
  end.


(** The sequence rule as the spec words it: keep the numeric elements and
    double them when the length exceeds 5, otherwise transform each element. *)
Definition seq_rule_spec (l : list value) : list value :=
  if (5 <? length l)%nat then map times2 (filter is_numeric l)
  else map short_list_elem l.

(** The mapping rule as the spec words it: same keys, each value transformed. *)
Definition map_rule_spec (d : list (string * value)) : list (string * value) :=
  map (fun '(k, v) => (k, dict_elem v)) d.

(** ** The same code over a heap of Python objects

    [process_config] with the objects it touches made explicit: the
    configuration is the caller's dict (by reference), lists and dicts are
    objects in a store, a value is either immediate or a reference, and
    [None] stands for a raised exception.  The loop reads each object when
    it reaches it, as Python does. *)
Module Heap.

Definition loc := nat.

(** Immediate values and references to objects. [HNone] is Python's [None]. *)
Inductive hval : Type :=
| HStr (s : string)
| HInt (z : Z)
| HFloat (f : float)
| HNone
| HRef (l : loc).

(** Heap objects: lists, dicts, and any other object (set, tuple, ...). *)
Inductive obj : Type :=
| OList (xs : list hval)
| ODict (d : list (string * hval))
| OOpaque (tag : nat).

Definition heap := list obj.

(** The instance: its attributes [config] and [internal_state]. *)
Record Self : Type := mkSelf { cfg_loc : loc; state_loc : loc }.

(** A fresh object at the end of the heap. *)
Definition alloc (h : heap) (o : obj) : loc * heap := (length h, h ++ [o]).

(** [__init__(self, config)]: [self.config = config; self.internal_state = {}]. *)
Definition init (h : heap) (config : loc) : heap * Self :=
  let '(l, h') := alloc h (ODict []) in (h', mkSelf config l).

(** [d[key] = v] on the dict object at [d]. *)
Definition set_item (h : heap) (d : loc) (key : string) (v : hval) : option heap :=
  match h !! d with
  | Some (ODict entries) => Some (<[d := ODict (dict_set entries key v)]> h)
  | _ => None
  end.

Definition long_elem (elem : hval) : list hval :=
  match elem with
  | HInt z => [HInt (z * 2)%Z]
  | HFloat f => [HFloat (f * 2)%float]
  | _ => []
  end.

Definition short_elem (elem : hval) : hval :=
  match elem with
  | HInt z => HInt (_internal_helper "multiply" z)
  | HStr s => HStr (_another_internal_helper s)
  | _ => elem
  end.

Definition dict_val_elem (d_value : hval) : hval :=
  match d_value with
  | HInt z => HInt (_internal_helper "add" z)
  | HStr s => HStr (_another_internal_helper s)
  | _ => d_value
  end.

(** The new list of the [case list()] arm. *)
Definition list_result (list_val : list hval) : list hval :=
  if (5 <? length list_val)%nat then flat_map long_elem list_val
  else fold_left (fun new_list elem => app new_list [short_elem elem]) list_val [].

(** The new dict of the [case dict()] arm. *)
Definition dict_result (dict_val : list (string * hval)) : list (string * hval) :=
  fold_left (fun nested_result '(d_key, d_value) =>
               dict_set nested_result d_key (dict_val_elem d_value)) dict_val [].

(** The [match value:] statement for one entry. *)
Definition process_entry (self : Self) (h : heap) (key : string) (value : hval)
    : option heap :=
  match value with
  | HStr string_val => set_item h (state_loc self) key (HStr (_another_internal_helper string_val))
  | HInt int_val => set_item h (state_loc self) key (HInt (_internal_helper key int_val))
  | HRef l =>
      match h !! l with
      | Some (OList list_val) =>
          let '(nl, h1) := alloc h (OList (list_result list_val)) in
          set_item h1 (state_loc self) key (HRef nl)
      | Some (ODict dict_val) =>
          let '(nl, h1) := alloc h (ODict (dict_result dict_val)) in
          set_item h1 (state_loc self) key (HRef nl)
      | Some (OOpaque _) => set_item h (state_loc self) key value
      | None => None
      end
  | _ => set_item h (state_loc self) key value
  end.

Fixpoint process_loop (self : Self) (h : heap) (entries : list (string * hval))
    : option heap :=
  match entries with
  | [] => Some h
  | (key, value) :: rest =>
      match process_entry self h key value with
      | Some h' => process_loop self h' rest
      | None => None
      end
  end.

(** [process_config(self)]: [for key, value in self.config.items(): ...];
    a [config] that is not a dict has no [items] and raises. *)
Definition process_config (self : Self) (h : heap) : option heap :=
  match h !! cfg_loc self with
  | Some (ODict entries) => process_loop self h entries
  | _ => None
  end.

(** [n] successive calls of [process_config]. *)
Fixpoint process_config_n (n : nat) (self : Self) (h : heap) : option heap :=
  match n with
  | O => Some h
  | S n' =>
      match process_config self h with
      | Some h' => process_config_n n' self h'
      | None => None
      end
  end.

Definition obj_vals (o : obj) : list hval :=
  match o with
  | OList xs => xs
  | ODict d => map snd d
  | OOpaque _ => []
  end.

(** Every reference stored in an object names an object of the heap. *)
Definition heap_wf (h : heap) : Prop :=
  forall l o r, h !! l = Some o -> In (HRef r) (obj_vals o) -> r < length h.

(** [heap_wf] as a check. *)
Definition hval_ref_ok (n : nat) (v : hval) : bool :=
  match v with HRef r => (r <? n)%nat | _ => true end.

Definition heap_wfb (h : heap) : bool :=
  forallb (fun o => forallb (hval_ref_ok (length h)) (obj_vals o)) h.

(** Values [process_config] has no arm for, other than the catch-all. *)
Definition other_shape (h : heap) (v : hval) : bool :=
  match v with
  | HFloat _ | HNone => true
  | HRef l => match h !! l with Some (OOpaque _) => true | _ => false end
  | _ => false
  end.

(** The configuration of [example1] in a heap: the dict at 0, its list,
    nested dict and set at 1 to 4. *)
Definition example1_heap : heap :=
  [ODict [("multiply", HInt 12); ("add", HInt (-20));
          ("textData", HStr "This might be an error message");
          ("listData", HRef 1); ("anotherList", HRef 2);
          ("nestedDict", HRef 3); ("unhandledType", HRef 4)];
   OList [HInt 5; HStr "hello"; HFloat 3.14; HInt (-2); HInt 10];
   OList (map HInt [1; 2; 3; 4; 5; 6; 7]%Z);
   ODict [("innerInt", HInt 5); ("innerText", HStr "SUCCESS CASE"); ("ignored", HFloat 3.1415)];
   OOpaque 0].

End Heap.

(** ** The rest of _black.py *)

(** [range(n)] for an integer [n]: empty when [n <= 0]. *)
Definition py_range (n : Z) : list Z := map Z.of_nat (seq 0 (Z.to_nat n)).

(** [class MyUtilityClass] with its attributes [name] and [value]. *)
Record MyUtilityClass : Type := mkUtility { util_name : string; util_value : Z }.

(** The condition [(i % 2 == 0 and i < 10) or (i > 15 and i % 3 == 0)]. *)
Definition process_cond (i : Z) : bool :=
  (((i mod 2 =? 0) && (i <? 10)) || ((i >? 15) && (i mod 3 =? 0)))%Z.

(** [MyUtilityClass.process(self)] *)
Definition util_process (self : MyUtilityClass) : list Z :=
  fold_left (fun result i => if process_cond i then result ++ [i] else result)
            (py_range (util_value self)) [].

(** [class User(BaseModel)]: fields [username: str] and [age: int]. *)
Record User : Type := mkUser { username : string; age : Z }.

(** The validator [check_age]; [None] is the [ValueError] it raises. *)
Definition check_age (v : Z) : option Z :=
  if (v <? 0)%Z then None else Some v.

(** [User(username=..., age=...)]: the model is built when [check_age] passes. *)
Definition User_new (name : string) (a : Z) : option User :=
  match check_age a with
  | Some a' => Some (mkUser name a')
  | None => None
  end.

(** The comprehension [[User(username=name, age=(idx + starting_age)) for idx,
    name in enumerate(names)]] from index [idx]; the first failing element
    raises. *)
Fixpoint create_users_from (starting_age : Z) (idx : Z) (names : list string)
    : option (list User) :=
  match names with
  | [] => Some []
  | name :: rest =>
      match User_new name (idx + starting_age) with
      | Some u =>
          match create_users_from starting_age (idx + 1) rest with
          | Some us => Some (u :: us)
          | None => None
          end
      | None => None
      end
  end.

(** [create_users(names, starting_age=0)] *)
Definition create_users (names : list string) (starting_age : Z) : option (list User) :=
  create_users_from starting_age 0 names.

(** The [while a <= limit: yield a; a, b = b, a + b] loop of
    [fibonacci_generator], run for at most [fuel] iterations. *)
Fixpoint fib_loop (fuel : nat) (limit a b : Z) : list Z :=
  match fuel with
  | O => []
  | S fuel' => if (a <=? limit)%Z then a :: fib_loop fuel' limit b (a + b) else []
  end.

(** [list(fibonacci_generator(limit))]; [limit + 3] iterations are enough
    for the loop to stop by itself (lemma [fib_loop_fuel_enough]). *)
Definition fibonacci_generator (limit : Z) : list Z :=
  fib_loop (Z.to_nat limit + 3) limit 0 1.

(** The Fibonacci numbers, F 0 = 0, F 1 = 1. *)
Fixpoint fib (n : nat) : Z :=
  match n with
  | O => 0
  | S O => 1
  | S ((S m) as p) => (fib p + fib m)%Z
  end.

(** What [Example3.__init__(self, bar)] returns, for an integer [bar]. *)
Inductive init_return : Type :=
| RetNone
| RetInt (z : Z)
| RetTuple.

(** [Example3.__init__]: [bar += 1; bar = bar * bar; return bar] when [bar]
    is truthy, otherwise [return (sys.path, some_string)]. *)
Definition Example3_init (bar : Z) : init_return :=
  if (bar =? 0)%Z then RetTuple
  else let bar1 := (bar + 1)%Z in RetInt (bar1 * bar1)%Z.

(** [Example3(bar)]: [type.__call__] raises [TypeError] when [__init__]
    returns anything but [None]; [None] here is that error. *)
Definition Example3_new (bar : Z) : option unit :=
  match Example3_init bar with
  | RetNone => Some tt
  | _ => None
  end.

(** Python ints and lists, for the comparisons of [min] in [main]. *)
Inductive pyval : Type :=
| PInt (z : Z)
| PList (xs : list pyval).

(** [x == y]: never raises between ints and lists. *)
Fixpoint py_eq (x y : pyval) : bool :=
  match x, y with
  | PInt a, PInt b => Z.eqb a b
  | PList xs, PList ys =>
      (fix go (xs ys : list pyval) : bool :=
         match xs, ys with
         | [], [] => true
         | x' :: xs', y' :: ys' => py_eq x' y' && go xs' ys'
         | _, _ => false
         end) xs ys
  | _, _ => false
  end.

(** [x < y]; [None] is the [TypeError] of comparing an int with a list.
    Lists compare at their first position whose items differ ([==]), and by
    length when there is none. *)
Fixpoint py_lt (x y : pyval) : option bool :=
  match x, y with
  | PInt a, PInt b => Some (a <? b)%Z
  | PList xs, PList ys =>
      (fix go (xs ys : list pyval) : option bool :=
         match xs, ys with
         | x' :: xs', y' :: ys' => if py_eq x' y' then go xs' ys' else py_lt x' y'
         | [], [] => Some false
         | [], _ :: _ => Some true
         | _ :: _, [] => Some false
         end) xs ys
  | _, _ => None
  end.

(** [min(a, b, ...)]: keeps the first of the least items, replacing the current
    one when [item < current]; [None] is a raised error. *)
Definition py_min (args : list pyval) : option pyval :=
  match args with
  | [] => None
  | first :: rest =>
      fold_left (fun acc item =>
                   match acc with
                   | Some best =>
                       match py_lt item best with
                       | Some true => Some item
                       | Some false => Some best
                       | None => None
                       end
                   | None => None
                   end) rest (Some first)
  end.

(** [[number if number % 2 == 0 else -number for number in big_list]] *)
Definition numbers_with_sign (big_list : list Z) : list Z :=
  map (fun number => if (number mod 2 =? 0)%Z then number else (- number)%Z) big_list.

(** The arguments of [min(numbers_with_sign, numbers_with_sign, len(fib_numbers))]
    in [main]. *)
Definition main_min_args (big_list : list Z) (fib_limit : Z) : list pyval :=
  let nws := PList (map PInt (numbers_with_sign big_list)) in
  [nws; nws; PInt (Z.of_nat (length (fibonacci_generator fib_limit)))].

(** ** Tests on concrete inputs *)

Example ex_text2 : _another_internal_helper "great success" = "Great success".
Proof. reflexivity. Qed.
Example ex_num1 : _internal_helper "add" (-150) = 50%Z.
Proof. reflexivity. Qed.
Example ex_text1 : _another_internal_helper "this has an ERROR" = "THIS HAS AN ERROR".
Proof. reflexivity. Qed.
Example ex_text3 : _another_internal_helper "hello" = "olleh".
Proof. reflexivity. Qed.

Example ex_complex :
  transform complex_config =
  [("multiply", VInt 24); ("add", VInt 30);
   ("textData", VStr "THIS MIGHT BE AN ERROR MESSAGE");
   ("listData", VList [VInt 15; VStr "olleh"; VFloat 3.14; VInt (-6); VInt 30]);
   ("anotherList", VList (map VInt [2; 4; 6; 8; 10; 12; 14]%Z));
   ("nestedDict", VDict [("innerInt", VInt 15); ("innerText", VStr "Success case");
                         ("ignored", VFloat 3.1415)]);
   ("unhandledType", VOther 0)].
Proof. reflexivity. Qed.

(** [process_config] of [example1] in the heap model: the five objects are
    untouched, the accumulator (5) maps the set to the same object (4) and
    the list and dict entries to new objects (6 to 8). *)
Example ex_heap_example1 :
  let '(h1, self) := Heap.init Heap.example1_heap 0 in
  Heap.process_config self h1 =
  Some (Heap.example1_heap ++
        [Heap.ODict [("multiply", Heap.HInt 24); ("add", Heap.HInt 30);
                     ("textData", Heap.HStr "THIS MIGHT BE AN ERROR MESSAGE");
                     ("listData", Heap.HRef 6); ("anotherList", Heap.HRef 7);
                     ("nestedDict", Heap.HRef 8); ("unhandledType", Heap.HRef 4)];
         Heap.OList [Heap.HInt 15; Heap.HStr "olleh"; Heap.HFloat 3.14; Heap.HInt (-6);
                     Heap.HInt 30];
         Heap.OList (map Heap.HInt [2; 4; 6; 8; 10; 12; 14]%Z);
         Heap.ODict [("innerInt", Heap.HInt 15); ("innerText", Heap.HStr "Success case");
                     ("ignored", Heap.HFloat 3.1415)]]).
Proof. reflexivity. Qed.

Example ex_util_process : util_process (mkUtility "UtilityTest" 20) = [0; 2; 4; 6; 8; 18]%Z.
Proof. reflexivity. Qed.
Example ex_fib50 : fibonacci_generator 50 = [0; 1; 1; 2; 3; 5; 8; 13; 21; 34]%Z.
Proof. reflexivity. Qed.
Example ex_create_users :
  create_users ["Charlie"; "Diana"; "Eve"] 20 =
  Some [mkUser "Charlie" 20; mkUser "Diana" 21; mkUser "Eve" 22].
Proof. reflexivity. Qed.
Example ex_main_min :
  py_min (main_min_args (map Z.of_nat (seq 1 25)) 50) = None.
Proof. reflexivity. Qed.

(** ** Dictionary lemmas *)

Lemma dict_set_keys {A : Type} (d : list (string * A)) (k : string) (v : A) (x : string) :
  In x (map fst (dict_set d k v)) <-> x = k \/ In x (map fst d).
Proof.
  induction d as [|[k' v'] r IH]; simpl; [intuition congruence|].
  destruct (String.eqb_spec k k'); simpl; subst; [intuition congruence|].
  rewrite IH. intuition congruence.
Qed.

Lemma dict_set_nodup {A : Type} (d : list (string * A)) (k : string) (v : A) :
  List.NoDup (map fst d) -> List.NoDup (map fst (dict_set d k v)).
Proof.
  induction d as [|[k' v'] r IH]; simpl; intros Hnd.
  - constructor; [simpl; tauto | constructor].
  - inversion Hnd as [|? ? Hnin Hnd']; subst.
    destruct (String.eqb_spec k k'); simpl; subst.
    + constructor; assumption.
    + constructor; [|auto].
      rewrite dict_set_keys. intros [->|]; auto.
Qed.

Lemma dict_get_set {A : Type} (d : list (string * A)) (k : string) (v : A) (x : string) :
  dict_get (dict_set d k v) x = if String.eqb x k then Some v else dict_get d x.
Proof.
  induction d as [|[k' v'] r IH]; simpl; [reflexivity|].
  destruct (String.eqb_spec k k'); simpl; subst.
  - destruct (String.eqb x k'); reflexivity.
  - rewrite IH. destruct (String.eqb_spec x k); destruct (String.eqb_spec x k');
      subst; congruence.
Qed.

Lemma dict_get_None {A : Type} (d : list (string * A)) (x : string) :
  ~ In x (map fst d) -> dict_get d x = None.
Proof.
  induction d as [|[k' v'] r IH]; simpl; [reflexivity|].
  intros Hn. destruct (String.eqb_spec x k'); [subst; tauto|]. auto.
Qed.

Lemma dict_get_In {A : Type} (d : list (string * A)) (k : string) (v : A) :
  List.NoDup (map fst d) -> In (k, v) d -> dict_get d k = Some v.
Proof.
  induction d as [|[k' v'] r IH]; simpl; [tauto|].
  intros Hnd Hin. inversion Hnd as [|? ? Hnin Hnd']; subst.
  destruct Hin as [Heq|Hin].
  - inversion Heq; subst. rewrite String.eqb_refl. reflexivity.
  - destruct (String.eqb_spec k k'); [|auto].
    subst. exfalso. apply Hnin. apply (in_map fst) in Hin. exact Hin.
Qed.

Lemma dict_set_fresh {A : Type} (d : list (string * A)) (k : string) (v : A) :
  ~ In k (map fst d) -> dict_set d k v = d ++ [(k, v)].
Proof.
  induction d as [|[k' v'] r IH]; simpl; [reflexivity|].
  intros Hn. destruct (String.eqb_spec k k'); [subst; tauto|].
  rewrite IH; auto.
Qed.

Lemma dict_get_perm {A : Type} (d d' : list (string * A)) :
  List.NoDup (map fst d) -> Permutation d d' -> forall x, dict_get d x = dict_get d' x.
Proof.
  intros Hnd Hp. induction Hp as [|[k v] l l' Hp IH|[k1 v1] [k2 v2] l|l l' l'' Hp1 IH1 Hp2 IH2];
    intros x; simpl in *.
  - reflexivity.
  - inversion Hnd; subst. destruct (String.eqb x k); auto.
  - inversion Hnd as [|? ? Hn1 Hnd1]; subst.
    destruct (String.eqb_spec x k2); destruct (String.eqb_spec x k1); subst; auto.
    exfalso. apply Hn1. left. reflexivity.
  - rewrite IH1 by assumption. apply IH2.
    apply (Permutation_NoDup (Permutation_map fst Hp1)). assumption.
Qed.

(** ** The loop of [process_config] *)

Lemma process_entries_cons (acc : list (string * value)) (k : string) (v : value)
    (l : list (string * value)) :
  process_entries acc ((k, v) :: l) = process_entries (dict_set acc k (process_value k v)) l.
Proof. reflexivity. Qed.

Lemma process_entries_keys (acc l : list (string * value)) (x : string) :
  In x (map fst (process_entries acc l)) <-> In x (map fst acc) \/ In x (map fst l).
Proof.
  revert acc. induction l as [|[k v] l IH]; intros acc.
  - simpl. tauto.
  - rewrite process_entries_cons, IH, dict_set_keys. simpl. intuition congruence.
Qed.

Lemma process_entries_nodup (acc l : list (string * value)) :
  List.NoDup (map fst acc) -> List.NoDup (map fst (process_entries acc l)).
Proof.
  revert acc. induction l as [|[k v] l IH]; intros acc Hnd; [exact Hnd|].
  rewrite process_entries_cons. apply IH, dict_set_nodup, Hnd.
Qed.

(** After the loop, a key of the configuration holds its transformed value;
    any other key keeps what the accumulator held before. *)
Lemma process_entries_get (acc l : list (string * value)) (x : string) :
  List.NoDup (map fst l) ->
  dict_get (process_entries acc l) x =
  match dict_get l x with
  | Some v => Some (process_value x v)
  | None => dict_get acc x
  end.
Proof.
  revert acc. induction l as [|[k v] l IH]; intros acc Hnd; [reflexivity|].
  inversion Hnd as [|? ? Hnin Hnd']; subst.
  rewrite process_entries_cons, IH by assumption. simpl.
  rewrite dict_get_set.
  destruct (String.eqb_spec x k) as [->|Hne].
  - rewrite dict_get_None by assumption. reflexivity.
  - destruct (dict_get l x); reflexivity.
Qed.

Lemma transform_get (c : list (string * value)) (k : string) (v : value) :
  List.NoDup (map fst c) -> In (k, v) c ->
  dict_get (transform c) k = Some (process_value k v).
Proof.
  intros Hnd Hin. unfold transform, process_config, init. simpl.
  rewrite process_entries_get by assumption.
  rewrite (dict_get_In c k v) by assumption. reflexivity.
Qed.

Lemma long_list_branch_spec (l : list value) :
  long_list_branch l = map times2 (filter is_numeric l).
Proof.
  induction l as [|e l IH]; [reflexivity|].
  unfold long_list_branch in *. simpl. rewrite IH.
  destruct e; reflexivity.
Qed.

Lemma short_list_loop (l acc : list value) :
  fold_left (fun new_list elem => app new_list [short_list_elem elem]) l acc =
  acc ++ map short_list_elem l.
Proof.
  revert acc. induction l as [|e l IH]; intros acc; simpl.
  - rewrite app_nil_r. reflexivity.
  - rewrite IH, <- app_assoc. reflexivity.
Qed.

Lemma short_list_branch_spec (l : list value) :
  short_list_branch l = map short_list_elem l.
Proof. unfold short_list_branch. rewrite short_list_loop. reflexivity. Qed.

Lemma dict_branch_loop (d acc : list (string * value)) :
  List.NoDup (map fst acc ++ map fst d) ->
  fold_left (fun nested_result '(d_key, d_value) =>
               dict_set nested_result d_key (dict_elem d_value)) d acc =
  acc ++ map_rule_spec d.
Proof.
  revert acc. induction d as [|[k v] d IH]; intros acc Hnd; simpl.
  - rewrite app_nil_r. reflexivity.
  - assert (Hk : ~ In k (map fst acc)).
    { intros Hin. apply NoDup_remove_2 in Hnd. apply Hnd. apply in_or_app. left. exact Hin. }
    rewrite dict_set_fresh by exact Hk.
    rewrite IH.
    + rewrite <- app_assoc. reflexivity.
    + rewrite map_app, <- app_assoc. exact Hnd.
Qed.

Lemma dict_branch_spec (d : list (string * value)) :
  List.NoDup (map fst d) -> dict_branch d = map_rule_spec d.
Proof.
  intros Hnd. unfold dict_branch. rewrite dict_branch_loop; [reflexivity|exact Hnd].
Qed.

(** ** Claims on the transformation *)

(** C1: for every configuration (also the empty one), the result of
    [process_config] on a fresh object has exactly the configuration's keys,
    each exactly once. *)
Theorem transform_key_set (c : list (string * value)) :
  (forall k, In k (map fst (transform c)) <-> In k (map fst c)) /\
  List.NoDup (map fst (transform c)).
Proof.
  unfold transform, process_config, init. simpl. split.
  - intros k. rewrite process_entries_keys. simpl. tauto.
  - apply process_entries_nodup. constructor.
Qed.

(** C2: the text rule upper-cases on "error", capitalises on "success" and
    otherwise reverses; with the three examples of the spec. *)
Theorem text_rule_correct :
  (forall s, _another_internal_helper s = transformText_spec s) /\
  _another_internal_helper "this has an ERROR" = "THIS HAS AN ERROR" /\
  _another_internal_helper "great success" = "Great success" /\
  _another_internal_helper "hello" = "olleh".
Proof.
  split; [|repeat split; reflexivity].
  intros s. unfold _another_internal_helper, transformText_spec.
  destruct (str_contains "error" (lower s)); [reflexivity|].
  destruct (str_contains "success" (lower s)); [|reflexivity].
  destruct s; reflexivity.
Qed.

(** C3: the numeric rule on "multiply", "add" and any other selector; with
    the six examples of the spec. *)
Theorem number_rule_correct :
  (forall opSelector v, _internal_helper opSelector v = transformNumber_spec opSelector v) /\
  _internal_helper "multiply" 12 = 24%Z /\ _internal_helper "multiply" 5 = 15%Z /\
  _internal_helper "add" (-150) = 50%Z /\ _internal_helper "add" (-20) = 30%Z /\
  _internal_helper "add" 5 = 15%Z /\ _internal_helper "other" 7 = 7%Z.
Proof.
  split; [|repeat split; reflexivity].
  intros op v. unfold _internal_helper, transformNumber_spec.
  rewrite Z.gtb_ltb. replace (Z.abs v >? 100)%Z with (100 <? Z.abs v)%Z
    by (rewrite Z.gtb_ltb; reflexivity).
  rewrite (Z.mul_comm 2 v), (Z.mul_comm 3 v). reflexivity.
Qed.

(** C4: a list value of the configuration is stored as the spec's sequence
    rule of it: numeric elements doubled (others dropped) above length 5,
    element-wise transformation otherwise. *)
Theorem transform_sequence (c : list (string * value)) (k : string) (l : list value) :
  List.NoDup (map fst c) -> In (k, VList l) c ->
  dict_get (transform c) k = Some (VList (seq_rule_spec l)).
Proof.
  intros Hnd Hin. rewrite (transform_get c k (VList l)) by assumption.
  unfold process_value, seq_rule_spec.
  rewrite long_list_branch_spec, short_list_branch_spec.
  destruct (5 <? length l)%nat; reflexivity.
Qed.

(** C5: a dict value of the configuration is stored as a new dict with the
    same keys, integers through the "add" rule, strings through the text
    rule, everything else unchanged. *)
Theorem transform_mapping (c : list (string * value)) (k : string)
    (d : list (string * value)) :
  List.NoDup (map fst c) -> In (k, VDict d) c -> List.NoDup (map fst d) ->
  dict_get (transform c) k = Some (VDict (map_rule_spec d)).
Proof.
  intros Hnd Hin Hd. rewrite (transform_get c k (VDict d)) by assumption.
  simpl. rewrite dict_branch_spec by assumption. reflexivity.
Qed.

(** C6: a top-level integer goes through the numeric rule with its own key as
    selector, so a key other than "multiply" and "add" keeps its value. *)
Theorem transform_top_int (c : list (string * value)) (k : string) (v : Z) :
  List.NoDup (map fst c) -> In (k, VInt v) c ->
  dict_get (transform c) k = Some (VInt (_internal_helper k v)) /\
  (k <> "multiply" -> k <> "add" -> dict_get (transform c) k = Some (VInt v)).
Proof.
  intros Hnd Hin. rewrite (transform_get c k (VInt v)) by assumption. simpl.
  split; [reflexivity|].
  intros Hm Ha. unfold _internal_helper.
  destruct (String.eqb_spec k "multiply"); [contradiction|].
  destruct (String.eqb_spec k "add"); [contradiction|reflexivity].
Qed.

(** C7 (as the code does it): [internal_state] is created empty once, in
    [__init__]; each call of [process_config] overwrites the entry of every
    key of the current configuration and keeps every other entry of the
    accumulator, so a second call on the same configuration changes no
    entry. *)
Theorem process_config_accumulates (s : VeryComplicatedClass) :
  List.NoDup (map fst (config s)) ->
  (forall x, dict_get (internal_state (process_config s)) x =
             match dict_get (config s) x with
             | Some v => Some (process_value x v)
             | None => dict_get (internal_state s) x
             end) /\
  (forall x, dict_get (internal_state (process_config (process_config s))) x =
             dict_get (internal_state (process_config s)) x).
Proof.
  intros Hnd. unfold process_config. simpl.
  split; intros x; rewrite !process_entries_get by assumption; [reflexivity|].
  destruct (dict_get (config s) x); reflexivity.
Qed.

(** C8: processing the entries of the configuration in any order gives the
    same mapping. *)
Theorem transform_order_independent (c c' : list (string * value)) :
  List.NoDup (map fst c) -> Permutation c c' ->
  forall x, dict_get (transform c) x = dict_get (transform c') x.
Proof.
  intros Hnd Hp x.
  assert (Hnd' : List.NoDup (map fst c')).
  { apply (Permutation_NoDup (Permutation_map fst Hp)). exact Hnd. }
  unfold transform, process_config, init. simpl.
  rewrite !process_entries_get by assumption.
  rewrite (dict_get_perm c c' Hnd Hp x). reflexivity.
Qed.

(** ** The heap model: what a call writes *)

Module HeapFacts.
Import Heap.

Lemma set_item_frame (h h' : heap) (d : loc) (key : string) (v : hval) :
  set_item h d key v = Some h' ->
  length h' = length h /\ forall l, l <> d -> h' !! l = h !! l.
Proof.
  unfold set_item. destruct (h !! d) as [[| |]|]; intros Hs; try discriminate.
  injection Hs as <-. split.
  - apply length_insert.
  - intros l Hne. apply list_lookup_insert_ne. congruence.
Qed.

Lemma alloc_frame (h : heap) (o : obj) (l : loc) :
  l < length h -> snd (alloc h o) !! l = h !! l.
Proof. intros Hl. simpl. apply lookup_app_l. exact Hl. Qed.

(** One entry writes only [internal_state] and objects it allocates. *)
Lemma process_entry_frame (self : Self) (h h' : heap) (key : string) (v : hval) :
  process_entry self h key v = Some h' ->
  length h <= length h' /\
  forall l, l < length h -> l <> state_loc self -> h' !! l = h !! l.
Proof.
  intros He.
  destruct v as [s|z|f| |r]; simpl in He;
    try (apply set_item_frame in He as [Hlen Hfr];
         split; [lia|intros l _ Hne; apply Hfr, Hne]).
  destruct (h !! r) as [[xs|d|t]|] eqn:Hr; try discriminate.
  - apply set_item_frame in He as [Hlen Hfr]. rewrite length_app in Hlen. simpl in Hlen.
    split; [lia|]. intros l Hl Hne. rewrite Hfr by exact Hne. apply lookup_app_l, Hl.
  - apply set_item_frame in He as [Hlen Hfr]. rewrite length_app in Hlen. simpl in Hlen.
    split; [lia|]. intros l Hl Hne. rewrite Hfr by exact Hne. apply lookup_app_l, Hl.
  - apply set_item_frame in He as [Hlen Hfr].
    split; [lia|]. intros l _ Hne. apply Hfr, Hne.
Qed.

Lemma process_loop_frame (self : Self) (entries : list (string * hval)) (h h' : heap) :
  process_loop self h entries = Some h' ->
  length h <= length h' /\
  forall l, l < length h -> l <> state_loc self -> h' !! l = h !! l.
Proof.
  revert h. induction entries as [|[key v] rest IH]; intros h Hl; simpl in Hl.
  - injection Hl as <-. split; [lia|]. intros; reflexivity.
  - destruct (process_entry self h key v) as [h1|] eqn:He; [|discriminate].
    apply process_entry_frame in He as [Hlen1 Hfr1].
    apply IH in Hl as [Hlen2 Hfr2].
    split; [lia|]. intros l Hlt Hne. rewrite Hfr2 by (lia || exact Hne). apply Hfr1; assumption.
Qed.

Lemma process_config_frame (self : Self) (h h' : heap) :
  process_config self h = Some h' ->
  length h <= length h' /\
  forall l, l < length h -> l <> state_loc self -> h' !! l = h !! l.
Proof.
  unfold process_config. destruct (h !! cfg_loc self) as [[| |]|]; try discriminate.
  apply process_loop_frame.
Qed.

Lemma process_config_n_frame (n : nat) (self : Self) (h h' : heap) :
  process_config_n n self h = Some h' ->
  length h <= length h' /\
  forall l, l < length h -> l <> state_loc self -> h' !! l = h !! l.
Proof.
  revert h. induction n as [|n IH]; intros h Hn; simpl in Hn.
  - injection Hn as <-. split; [lia|]. intros; reflexivity.
  - destruct (process_config self h) as [h1|] eqn:Hp; [|discriminate].
    apply process_config_frame in Hp as [Hlen1 Hfr1].
    apply IH in Hn as [Hlen2 Hfr2].
    split; [lia|]. intros l Hlt Hne. rewrite Hfr2 by (lia || exact Hne). apply Hfr1; assumption.
Qed.

(** ** The heap model: a call raises nothing *)

(** All references among [vs] name objects below [n]. *)
Definition refs_below (n : nat) (vs : list hval) : Prop :=
  forall r, In (HRef r) vs -> r < n.

Lemma dict_set_vals {A : Type} (d : list (string * A)) (k : string) (v x : A) :
  In x (map snd (dict_set d k v)) -> In x (map snd d) \/ x = v.
Proof.
  induction d as [|[k' v'] r IH]; simpl; [intuition|].
  destruct (String.eqb k k'); simpl; intuition.
Qed.

Lemma list_result_refs (n : nat) (xs : list hval) :
  refs_below n xs -> refs_below n (list_result xs).
Proof.
  intros Hxs r Hin. unfold list_result in Hin.
  destruct (5 <? length xs)%nat.
  - apply in_flat_map in Hin as [e [_ He]].
    destruct e; simpl in He; intuition discriminate.
  - assert (Hloop : forall acc, refs_below n acc ->
              refs_below n (fold_left (fun new_list elem => app new_list [short_elem elem]) xs acc)).
    { clear Hin. induction xs as [|e xs IH]; intros acc Hacc; simpl; [exact Hacc|].
      apply IH.
      - intros r' Hr'. apply Hxs. right. exact Hr'.
      - intros r' Hr'. apply in_app_or in Hr' as [Hr'|[Hr'|[]]]; [apply Hacc, Hr'|].
        apply Hxs. left. destruct e; simpl in Hr'; congruence. }
    apply (Hloop []); [intros ? []|exact Hin].
Qed.

Lemma dict_result_refs (n : nat) (d : list (string * hval)) :
  refs_below n (map snd d) -> refs_below n (map snd (dict_result d)).
Proof.
  intros Hd. unfold dict_result.
  assert (Hloop : forall acc, refs_below n (map snd acc) ->
            refs_below n (map snd (fold_left (fun nested_result '(d_key, d_value) =>
               dict_set nested_result d_key (dict_val_elem d_value)) d acc))).
  { induction d as [|[k v] d IH]; intros acc Hacc; simpl; [exact Hacc|].
    apply IH.
    - intros r Hr. apply Hd. right. exact Hr.
    - intros r Hr. apply dict_set_vals in Hr as [Hr|Hr]; [apply Hacc, Hr|].
      apply Hd. simpl. left. destruct v; simpl in Hr; congruence. }
  apply Hloop. intros ? [].
Qed.

Lemma alloc_wf (h : heap) (o : obj) :
  heap_wf h -> refs_below (length h) (obj_vals o) -> heap_wf (snd (alloc h o)).
Proof.
  intros Hwf Ho l o' r Hl Hin. simpl in *. rewrite length_app. simpl.
  apply lookup_snoc_Some in Hl as [[Hlt Hl]|[-> <-]].
  - specialize (Hwf l o' r Hl Hin). lia.
  - specialize (Ho r Hin). lia.
Qed.

Lemma set_item_ok (h : heap) (d : loc) (key : string) (v : hval) (acc : list (string * hval)) :
  heap_wf h -> h !! d = Some (ODict acc) -> refs_below (length h) [v] ->
  exists h', set_item h d key v = Some h' /\ heap_wf h' /\ length h' = length h /\
             exists acc', h' !! d = Some (ODict acc').
Proof.
  intros Hwf Hd Hv. unfold set_item. rewrite Hd.
  eexists. split; [reflexivity|].
  assert (Hlt : d < length h) by (eapply lookup_lt_Some; exact Hd).
  split; [|split; [apply length_insert|]].
  - intros l o r Hl Hin. unfold heap in *. rewrite length_insert.
    destruct (decide (l = d)) as [->|Hne].
    + rewrite list_lookup_insert_eq in Hl by exact Hlt. injection Hl as <-.
      simpl in Hin. apply dict_set_vals in Hin as [Hin|<-].
      * apply (Hwf d (ODict acc) r Hd Hin).
      * apply Hv. left. reflexivity.
    + rewrite list_lookup_insert_ne in Hl by congruence. apply (Hwf l o r Hl Hin).
  - eexists. apply list_lookup_insert_eq, Hlt.
Qed.

Lemma heap_wfb_sound (h : heap) : heap_wfb h = true -> heap_wf h.
Proof.
  unfold heap_wfb. intros Hb l o r Hl Hin.
  rewrite forallb_forall in Hb.
  assert (Ho : In o h) by (apply list_elem_of_In, (list_elem_of_lookup_2 _ l), Hl).
  specialize (Hb o Ho). rewrite forallb_forall in Hb.
  specialize (Hb (HRef r) Hin). simpl in Hb. apply Nat.ltb_lt, Hb.
Qed.

Lemma process_entry_ok (self : Self) (h : heap) (key : string) (v : hval)
    (acc : list (string * hval)) :
  heap_wf h -> h !! state_loc self = Some (ODict acc) -> refs_below (length h) [v] ->
  exists h', process_entry self h key v = Some h' /\ heap_wf h' /\
             exists acc', h' !! state_loc self = Some (ODict acc').
Proof.
  intros Hwf Hst Hv.
  assert (Hnoref : forall w, (forall r, w <> HRef r) -> refs_below (length h) [w]).
  { intros w Hw r [Hr|[]]. exfalso. apply (Hw r). exact Hr. }
  assert (Hdirect : forall w, refs_below (length h) [w] ->
            exists h', set_item h (state_loc self) key w = Some h' /\ heap_wf h' /\
                       exists acc', h' !! state_loc self = Some (ODict acc')).
  { intros w Hw. destruct (set_item_ok h (state_loc self) key w acc Hwf Hst Hw)
      as (h' & Hs & Hwf' & _ & Hst'). eauto. }
  assert (Hfresh : forall o, refs_below (length h) (obj_vals o) ->
            exists h', set_item (h ++ [o]) (state_loc self) key (HRef (length h)) = Some h' /\
                       heap_wf h' /\ exists acc', h' !! state_loc self = Some (ODict acc')).
  { intros o Ho.
    destruct (set_item_ok (h ++ [o]) (state_loc self) key (HRef (length h)) acc)
      as (h' & Hs & Hwf' & _ & Hst').
    - apply (alloc_wf h o Hwf Ho).
    - apply lookup_app_l_Some, Hst.
    - intros r [Hr|[]]. injection Hr as <-. rewrite length_app. simpl. lia.
    - eauto. }
  destruct v as [s|z|f| |r]; simpl;
    try (apply Hdirect, Hnoref; intros r' Hr'; discriminate).
  assert (Hr : r < length h) by (apply Hv; left; reflexivity).
  destruct (h !! r) as [[xs|d|t]|] eqn:Hlr.
  - apply Hfresh. simpl. apply list_result_refs.
    intros r' Hin. apply (Hwf r (OList xs) r' Hlr Hin).
  - apply Hfresh. simpl. apply dict_result_refs.
    intros r' Hin. apply (Hwf r (ODict d) r' Hlr Hin).
  - apply Hdirect, Hv.
  - exfalso. apply lookup_ge_None in Hlr. lia.
Qed.

Lemma process_loop_ok (self : Self) (entries : list (string * hval)) (h : heap)
    (acc : list (string * hval)) :
  heap_wf h -> h !! state_loc self = Some (ODict acc) ->
  refs_below (length h) (map snd entries) ->
  exists h', process_loop self h entries = Some h' /\ heap_wf h' /\
             exists acc', h' !! state_loc self = Some (ODict acc').
Proof.
  revert h acc. induction entries as [|[key v] rest IH]; intros h acc Hwf Hst Hrefs; simpl.
  - eauto.
  - destruct (process_entry_ok self h key v acc Hwf Hst) as (h1 & He & Hwf1 & acc1 & Hst1).
    + intros r [Hr|[]]. apply Hrefs. left. exact Hr.
    + rewrite He. apply (IH h1 acc1 Hwf1 Hst1).
      destruct (process_entry_frame self h h1 key v He) as [Hlen _].
      intros r Hr. specialize (Hrefs r (or_intror Hr)). lia.
Qed.

Lemma process_config_ok (self : Self) (h : heap) (entries acc : list (string * hval)) :
  heap_wf h -> h !! cfg_loc self = Some (ODict entries) ->
  h !! state_loc self = Some (ODict acc) ->
  exists h', process_config self h = Some h' /\ heap_wf h' /\
             exists acc', h' !! state_loc self = Some (ODict acc').
Proof.
  intros Hwf Hcfg Hst. unfold process_config. rewrite Hcfg.
  apply (process_loop_ok self entries h acc Hwf Hst).
  intros r Hr. apply (Hwf (cfg_loc self) (ODict entries) r Hcfg Hr).
Qed.

Lemma process_config_n_ok (n : nat) (self : Self) (h : heap) (entries acc : list (string * hval)) :
  heap_wf h -> h !! cfg_loc self = Some (ODict entries) ->
  h !! state_loc self = Some (ODict acc) -> cfg_loc self <> state_loc self ->
  exists h', process_config_n n self h = Some h'.
Proof.
  revert h acc. induction n as [|n IH]; intros h acc Hwf Hcfg Hst Hne; simpl; [eauto|].
  destruct (process_config_ok self h entries acc Hwf Hcfg Hst) as (h1 & Hp & Hwf1 & acc1 & Hst1).
  rewrite Hp. apply (IH h1 acc1 Hwf1); [|exact Hst1|exact Hne].
  destruct (process_config_frame self h h1 Hp) as [_ Hfr].
  rewrite Hfr; [exact Hcfg| |exact Hne]. eapply lookup_lt_Some. exact Hcfg.
Qed.

Lemma init_shape (h : heap) (config : loc) :
  fst (init h config) = h ++ [ODict []] /\ snd (init h config) = mkSelf config (length h).
Proof. split; reflexivity. Qed.

(** C9: on a well-formed heap whose configuration is a dict, a fresh
    transformer's [process_config] never raises, on any number of calls,
    and a value of no recognised shape is stored as it is (the same object). *)
Theorem process_config_never_raises (n : nat) (h : heap) (config : loc)
    (entries : list (string * hval)) :
  heap_wf h -> h !! config = Some (ODict entries) ->
  (exists h2, process_config_n n (snd (init h config)) (fst (init h config)) = Some h2) /\
  (forall h1 key v, other_shape h1 v = true ->
     process_entry (snd (init h config)) h1 key v =
     set_item h1 (state_loc (snd (init h config))) key v).
Proof.
  intros Hwf Hcfg. destruct (init_shape h config) as [-> ->]. split.
  - assert (Hlt : config < length h) by (eapply lookup_lt_Some; exact Hcfg).
    apply (process_config_n_ok n _ _ entries []).
    + apply (alloc_wf h (ODict [])); [exact Hwf|intros r []].
    + apply lookup_app_l_Some, Hcfg.
    + apply list_lookup_middle. reflexivity.
    + simpl. lia.
  - intros h1 key v Hv. destruct v as [s|z|f| |r]; simpl in Hv; try discriminate;
      try reflexivity.
    simpl. destruct (h1 !! r) as [[xs|d|t]|]; try discriminate. reflexivity.
Qed.

(** C10: after any number of [process_config] calls on a fresh transformer,
    every object that existed before construction, the configuration dict
    and everything nested in it included, is unchanged, and [self.config]
    still names the dict passed to [__init__]. *)
Theorem process_config_preserves_config (n : nat) (h : heap) (config : loc) (h2 : heap) :
  process_config_n n (snd (init h config)) (fst (init h config)) = Some h2 ->
  cfg_loc (snd (init h config)) = config /\ forall l, l < length h -> h2 !! l = h !! l.
Proof.
  destruct (init_shape h config) as [-> ->]. intros Hn. split; [reflexivity|].
  apply process_config_n_frame in Hn as [_ Hfr]. simpl in Hfr.
  intros l Hl. rewrite Hfr.
  - apply lookup_app_l, Hl.
  - rewrite length_app. simpl. lia.
  - lia.
Qed.

End HeapFacts.

(** ** The claims at concrete inputs *)

Ltac solve_nodup := simpl; repeat constructor; simpl; intuition discriminate.
Ltac solve_in := simpl; repeat (first [left; reflexivity | right]).

Lemma transform_sequence_witness :
  List.NoDup (map fst complex_config) /\
  In ("anotherList", VList (map VInt [1; 2; 3; 4; 5; 6; 7]%Z)) complex_config /\
  dict_get (transform complex_config) "anotherList" =
    Some (VList (map VInt [2; 4; 6; 8; 10; 12; 14]%Z)).
Proof.
  split; [solve_nodup|]. split; [solve_in|].
  rewrite (transform_sequence complex_config "anotherList" (map VInt [1; 2; 3; 4; 5; 6; 7]%Z)
             ltac:(solve_nodup) ltac:(solve_in)).
  reflexivity.
Defined.

Lemma transform_mapping_witness :
  List.NoDup (map fst complex_config) /\
  In ("nestedDict", VDict [("innerInt", VInt 5); ("innerText", VStr "SUCCESS CASE");
                           ("ignored", VFloat 3.1415)]) complex_config /\
  List.NoDup ["innerInt"; "innerText"; "ignored"] /\
  dict_get (transform complex_config) "nestedDict" =
    Some (VDict [("innerInt", VInt 15); ("innerText", VStr "Success case");
                 ("ignored", VFloat 3.1415)]).
Proof.
  split; [solve_nodup|]. split; [solve_in|]. split; [solve_nodup|].
  rewrite (transform_mapping complex_config "nestedDict"
             [("innerInt", VInt 5); ("innerText", VStr "SUCCESS CASE"); ("ignored", VFloat 3.1415)]
             ltac:(solve_nodup) ltac:(solve_in) ltac:(solve_nodup)).
  reflexivity.
Defined.

Lemma transform_top_int_witness :
  List.NoDup (map fst complex_config) /\ In ("multiply", VInt 12) complex_config /\
  dict_get (transform complex_config) "multiply" = Some (VInt 24) /\
  In ("add", VInt (-20)) complex_config /\
  dict_get (transform complex_config) "add" = Some (VInt 30).
Proof.
  split; [solve_nodup|]. split; [solve_in|]. split.
  - destruct (transform_top_int complex_config "multiply" 12 ltac:(solve_nodup) ltac:(solve_in))
      as [-> _]. reflexivity.
  - split; [solve_in|].
    destruct (transform_top_int complex_config "add" (-20) ltac:(solve_nodup) ltac:(solve_in))
      as [-> _]. reflexivity.
Defined.

(** C7 as the spec words it fails: after [o.config] changes, the next call
    leaves the entry of the earlier configuration in [internal_state]. *)
Lemma accumulator_keeps_earlier_entries :
  let o := process_config (set_config (process_config (init [("a", VInt 1)]))
                                      [("b", VInt 2)]) in
  internal_state o = [("a", VInt 1); ("b", VInt 2)] /\ ~ In "a" (map fst (config o)).
Proof. split; [reflexivity|]. simpl. intuition discriminate. Qed.

Lemma process_config_accumulates_witness :
  let s := set_config (process_config (init [("a", VInt 1)])) [("b", VInt 2)] in
  List.NoDup (map fst (config s)) /\
  dict_get (internal_state (process_config s)) "a" = Some (VInt 1) /\
  dict_get (internal_state (process_config s)) "b" = Some (VInt 2).
Proof.
  intros s. split; [solve_nodup|].
  destruct (process_config_accumulates s ltac:(solve_nodup)) as [Hget _].
  rewrite !Hget. split; reflexivity.
Defined.

Lemma transform_order_independent_witness :
  let c := [("multiply", VInt 12); ("textData", VStr "hello"); ("unhandledType", VOther 0)] in
  let c' := [("textData", VStr "hello"); ("multiply", VInt 12); ("unhandledType", VOther 0)] in
  List.NoDup (map fst c) /\ Permutation c c' /\
  forall x, dict_get (transform c) x = dict_get (transform c') x.
Proof.
  intros c c'.
  assert (Hnd : List.NoDup (map fst c)) by solve_nodup.
  assert (Hp : Permutation c c') by apply perm_swap.
  split; [exact Hnd|]. split; [exact Hp|].
  exact (transform_order_independent c c' Hnd Hp).
Defined.

Lemma process_config_never_raises_witness :
  Heap.heap_wf Heap.example1_heap /\
  (exists h2, Heap.process_config_n 2 (snd (Heap.init Heap.example1_heap 0))
                                    (fst (Heap.init Heap.example1_heap 0)) = Some h2).
Proof.
  assert (Hwf : Heap.heap_wf Heap.example1_heap)
    by (apply HeapFacts.heap_wfb_sound; reflexivity).
  split; [exact Hwf|].
  destruct (HeapFacts.process_config_never_raises 2 Heap.example1_heap 0 _ Hwf eq_refl)
    as [Hex _].
  exact Hex.
Defined.

Lemma process_config_preserves_config_witness :
  let h2 := Heap.example1_heap ++
        [Heap.ODict [("multiply", Heap.HInt 24); ("add", Heap.HInt 30);
                     ("textData", Heap.HStr "THIS MIGHT BE AN ERROR MESSAGE");
                     ("listData", Heap.HRef 9); ("anotherList", Heap.HRef 10);
                     ("nestedDict", Heap.HRef 11); ("unhandledType", Heap.HRef 4)];
         Heap.OList [Heap.HInt 15; Heap.HStr "olleh"; Heap.HFloat 3.14; Heap.HInt (-6);
                     Heap.HInt 30];
         Heap.OList (map Heap.HInt [2; 4; 6; 8; 10; 12; 14]%Z);
         Heap.ODict [("innerInt", Heap.HInt 15); ("innerText", Heap.HStr "Success case");
                     ("ignored", Heap.HFloat 3.1415)];
         Heap.OList [Heap.HInt 15; Heap.HStr "olleh"; Heap.HFloat 3.14; Heap.HInt (-6);
                     Heap.HInt 30];
         Heap.OList (map Heap.HInt [2; 4; 6; 8; 10; 12; 14]%Z);
         Heap.ODict [("innerInt", Heap.HInt 15); ("innerText", Heap.HStr "Success case");
                     ("ignored", Heap.HFloat 3.1415)]] in
  Heap.process_config_n 2 (snd (Heap.init Heap.example1_heap 0))
                          (fst (Heap.init Heap.example1_heap 0)) = Some h2 /\
  forall l, l < length Heap.example1_heap -> h2 !! l = Heap.example1_heap !! l.
Proof.
  intros h2.
  assert (Hrun : Heap.process_config_n 2 (snd (Heap.init Heap.example1_heap 0))
                   (fst (Heap.init Heap.example1_heap 0)) = Some h2) by reflexivity.
  split; [exact Hrun|].
  exact (proj2 (HeapFacts.process_config_preserves_config 2 Heap.example1_heap 0 h2 Hrun)).
Defined.

(** ** Further properties of the code: the two helpers *)









Lemma str_map_length (f : ascii -> ascii) (s : string) :
  String.length (str_map f s) = String.length s.
Proof. induction s as [|c s IH]; simpl; [reflexivity|]. rewrite IH. reflexivity. Qed.

Lemma length_string_of_list_ascii (l : list ascii) :
  String.length (string_of_list_ascii l) = length l.
Proof. induction l as [|c l IH]; simpl; [reflexivity|]. rewrite IH. reflexivity. Qed.

Lemma length_list_ascii_of_string (s : string) :
  length (list_ascii_of_string s) = String.length s.
Proof. induction s as [|c s IH]; simpl; [reflexivity|]. rewrite IH. reflexivity. Qed.

Lemma str_reverse_length (s : string) : String.length (str_reverse s) = String.length s.
Proof.
  unfold str_reverse. rewrite length_string_of_list_ascii, length_rev.
  apply length_list_ascii_of_string.
Qed.

Lemma str_reverse_involutive (s : string) : str_reverse (str_reverse s) = s.
Proof.
  unfold str_reverse. rewrite list_ascii_of_string_of_list_ascii, rev_involutive.
  apply string_of_list_ascii_of_string.
Qed.


(** The text rule never changes the length of a string. *)
Theorem text_rule_length (s : string) :
  String.length (_another_internal_helper s) = String.length s.
Proof.
  unfold _another_internal_helper.
  destruct (str_contains "error" (lower s)); [apply str_map_length|].
  destruct (str_contains "success" (lower s)); [|apply str_reverse_length].
  destruct s as [|c r]; [reflexivity|]. simpl. f_equal. apply str_map_length.
Qed.

(** When neither a string nor its reversal mentions "error" or "success",
    applying the text rule twice gives the string back. *)
Theorem text_rule_reverse_twice (s : string) :
  str_contains "error" (lower s) = false -> str_contains "success" (lower s) = false ->
  str_contains "error" (lower (str_reverse s)) = false ->
  str_contains "success" (lower (str_reverse s)) = false ->
  _another_internal_helper (_another_internal_helper s) = s.
Proof.
  intros He Hs Hre Hrs. unfold _another_internal_helper at 2.
  rewrite He, Hs. unfold _another_internal_helper. rewrite Hre, Hrs.
  apply str_reverse_involutive.
Qed.

(** The "add" rule raises every integer by at least 10. *)
Theorem add_rule_increases (v : Z) : (v + 10 <= _internal_helper "add" v)%Z.
Proof.
  unfold _internal_helper. simpl.
  destruct (v <? 0)%Z; [destruct (Z.abs v >? 100)%Z|]; lia.
Qed.


(** A stored list is never longer than the original: as long when the
    original has at most 5 elements, otherwise only numbers (ints and floats)
    are kept. *)
Theorem process_value_list_length (key : string) (l : list value) :
  exists l', process_value key (VList l) = VList l' /\ length l' <= length l /\
    ((length l <= 5)%nat -> length l' = length l) /\
    ((5 < length l)%nat -> Forall (fun x => is_numeric x = true) l').
Proof.
  simpl. destruct (Nat.ltb_spec 5 (length l)) as [Hlt|Hle].
  - eexists. split; [reflexivity|]. rewrite long_list_branch_spec.
    rewrite length_map. split; [apply length_filter|].
    split; [lia|]. intros _. apply Forall_forall. intros x Hx.
    apply list_elem_of_In, in_map_iff in Hx as [y [<- Hy]].
    apply list_elem_of_In, list_elem_of_filter in Hy as [Hy _].
    destruct y; simpl in *; try reflexivity; contradiction.
  - eexists. split; [reflexivity|]. rewrite short_list_branch_spec, length_map.
    split; [lia|]. split; [reflexivity|lia].
Qed.

(** ** Further properties: [MyUtilityClass.process] *)

Lemma util_loop (l acc : list Z) :
  fold_left (fun result i => if process_cond i then result ++ [i] else result) l acc =
  acc ++ List.filter process_cond l.
Proof.
  revert acc. induction l as [|i l IH]; intros acc; simpl.
  - rewrite app_nil_r. reflexivity.
  - destruct (process_cond i); rewrite IH; [rewrite <- app_assoc|]; reflexivity.
Qed.

Lemma util_process_filter (self : MyUtilityClass) :
  util_process self = List.filter process_cond (py_range (util_value self)).
Proof. unfold util_process. rewrite util_loop. reflexivity. Qed.

Lemma py_range_In (n i : Z) : In i (py_range n) <-> (0 <= i < n)%Z.
Proof.
  unfold py_range. rewrite in_map_iff. split.
  - intros [k [<- Hk]]. apply in_seq in Hk. lia.
  - intros Hi. exists (Z.to_nat i). split; [lia|]. apply in_seq. lia.
Qed.

Lemma seq_sorted (start n : nat) :
  StronglySorted Z.lt (map Z.of_nat (seq start n)).
Proof.
  revert start. induction n as [|n IH]; intros start; simpl; constructor; [apply IH|].
  apply List.Forall_forall. intros x Hx. apply in_map_iff in Hx as [k [<- Hk]].
  apply in_seq in Hk. lia.
Qed.

Lemma filter_strongly_sorted (f : Z -> bool) (l : list Z) :
  StronglySorted Z.lt l -> StronglySorted Z.lt (List.filter f l).
Proof.
  induction 1 as [|x l Hs IH Hall]; simpl; [constructor|].
  destruct (f x); [|exact IH]. constructor; [exact IH|].
  apply List.Forall_forall. intros y Hy. apply filter_In in Hy as [Hy _].
  rewrite List.Forall_forall in Hall. apply Hall, Hy.
Qed.

(** [process] returns exactly the [i] in [range(value)] meeting its condition. *)
Theorem util_process_members (self : MyUtilityClass) (i : Z) :
  In i (util_process self) <->
  (0 <= i < util_value self)%Z /\ process_cond i = true.
Proof.
  rewrite util_process_filter, filter_In, py_range_In. reflexivity.
Qed.

(** [process] returns a strictly increasing list (no repeats). *)
Theorem util_process_sorted (self : MyUtilityClass) :
  StronglySorted Z.lt (util_process self).
Proof.
  rewrite util_process_filter. apply filter_strongly_sorted, seq_sorted.
Qed.

(** A larger [value] only appends to the result of [process]. *)
Theorem util_process_prefix (self self' : MyUtilityClass) :
  (util_value self <= util_value self')%Z ->
  exists rest, util_process self' = util_process self ++ rest.
Proof.
  intros Hle. rewrite !util_process_filter. unfold py_range.
  replace (Z.to_nat (util_value self'))
    with (Z.to_nat (util_value self) + (Z.to_nat (util_value self') - Z.to_nat (util_value self)))%nat
    by lia.
  rewrite seq_app, map_app, List.filter_app. eexists. reflexivity.
Qed.

(** ** Further properties: [User] and [create_users] *)

Lemma create_users_from_ok (sa idx : Z) (names : list string) :
  (0 <= idx)%Z -> (0 <= sa)%Z ->
  exists us, create_users_from sa idx names = Some us.
Proof.
  revert idx. induction names as [|name rest IH]; intros idx Hidx Hsa; simpl; [eauto|].
  unfold User_new, check_age. destruct (Z.ltb_spec (idx + sa) 0); [lia|].
  destruct (IH (idx + 1)%Z ltac:(lia) Hsa) as [us ->]. eauto.
Qed.

(** [create_users] raises exactly when a name is given and [starting_age] is
    negative: the first user then gets a negative age. *)
Theorem create_users_succeeds_iff (names : list string) (starting_age : Z) :
  (exists us, create_users names starting_age = Some us) <->
  names = [] \/ (0 <= starting_age)%Z.
Proof.
  split.
  - intros [us Hus]. destruct names as [|name rest]; [left; reflexivity|right].
    unfold create_users in Hus. simpl in Hus. unfold User_new, check_age in Hus.
    destruct (Z.ltb_spec (0 + starting_age) 0); [discriminate|lia].
  - intros [->|Hsa]; [exists []; reflexivity|].
    apply create_users_from_ok; lia.
Qed.

Lemma create_users_from_result (sa idx : Z) (names : list string) (us : list User) :
  create_users_from sa idx names = Some us ->
  map username us = names /\
  map age us = map (fun i => (idx + Z.of_nat i + sa)%Z) (seq 0 (length names)).
Proof.
  revert idx us. induction names as [|name rest IH]; intros idx us Hus; simpl in Hus.
  - injection Hus as <-. split; reflexivity.
  - unfold User_new, check_age in Hus. destruct (idx + sa <? 0)%Z; [discriminate|].
    destruct (create_users_from sa (idx + 1) rest) as [us'|] eqn:Hrest; [|discriminate].
    injection Hus as <-. destruct (IH (idx + 1)%Z us' Hrest) as [Hn Ha].
    simpl. rewrite Hn, Ha. split; [reflexivity|]. f_equal; [lia|].
    rewrite <- seq_shift, map_map. apply map_ext. intros i. lia.
Qed.

(** The users [create_users] returns carry the given names in order, with
    ages [starting_age], [starting_age + 1], ... *)
Theorem create_users_result (names : list string) (starting_age : Z) (us : list User) :
  create_users names starting_age = Some us ->
  map username us = names /\
  map age us = map (fun i => (starting_age + Z.of_nat i)%Z) (seq 0 (length names)).
Proof.
  intros Hus. destruct (create_users_from_result starting_age 0 names us Hus) as [Hn Ha].
  split; [exact Hn|]. rewrite Ha. apply map_ext. intros i. lia.
Qed.

(** ** Further properties: [fibonacci_generator] *)

Lemma fib_SS (n : nat) : fib (S (S n)) = (fib (S n) + fib n)%Z.
Proof. reflexivity. Qed.

Lemma fib_lower (m : nat) : (Z.of_nat m <= fib (S m))%Z.
Proof.
  assert (H : forall m, (Z.of_nat m <= fib (S m))%Z /\ (Z.of_nat (S m) <= fib (S (S m)))%Z).
  { induction m0 as [|m0 [IH1 IH2]]; [simpl; lia|]. split; [exact IH2|].
    rewrite fib_SS. destruct m0 as [|m0]; [simpl; lia|]. lia. }
  apply H.
Qed.

(** The loop from [a = F n, b = F (n+1)] yields [F n, F (n+1), ...] while
    they are at most [limit]; it stops early only when its fuel runs out. *)
Lemma fib_loop_from (limit : Z) (fuel n : nat) :
  exists k, (k <= fuel)%nat /\
    fib_loop fuel limit (fib n) (fib (S n)) = map fib (seq n k) /\
    (forall i, (i < k)%nat -> (fib (n + i) <= limit)%Z) /\
    ((k < fuel)%nat -> (limit < fib (n + k))%Z).
Proof.
  revert n. induction fuel as [|fuel IH]; intros n.
  - exists O. split; [lia|]. split; [reflexivity|]. split; intros; lia.
  - cbn [fib_loop]. destruct (Z.leb_spec (fib n) limit) as [Hle|Hgt].
    + destruct (IH (S n)) as (k & Hk & Hrun & Hall & Hstop).
      exists (S k). split; [lia|].
      rewrite Z.add_comm, <- fib_SS, Hrun. split; [reflexivity|]. split.
      * intros [|i] Hi; [rewrite Nat.add_0_r; exact Hle|].
        replace (n + S i)%nat with (S n + i)%nat by lia. apply Hall. lia.
      * intros Hlt. replace (n + S k)%nat with (S n + k)%nat by lia. apply Hstop. lia.
    + exists O. split; [lia|]. split; [reflexivity|]. split; [intros; lia|].
      intros _. rewrite Nat.add_0_r. lia.
Qed.

(** With fuel above [limit + 2] the loop ends on its own, yielding the
    Fibonacci numbers up to [limit]. *)
Lemma fib_loop_complete (limit : Z) (fuel : nat) :
  (Z.to_nat limit + 3 <= fuel)%nat ->
  exists k, fib_loop fuel limit 0 1 = map fib (seq 0 k) /\
    (forall i, (i < k)%nat -> (fib i <= limit)%Z) /\ (limit < fib k)%Z.
Proof.
  intros Hfuel. destruct (fib_loop_from limit fuel 0) as (k & Hk & Hrun & Hall & Hstop).
  exists k. split; [exact Hrun|]. split; [exact Hall|].
  apply Hstop. destruct (Nat.lt_ge_cases (Z.to_nat limit + 2) k) as [Hbig|Hsmall]; [|lia].
  exfalso. specialize (Hall (Z.to_nat limit + 2)%nat Hbig). simpl in Hall.
  pose proof (fib_lower (S (Z.to_nat limit))) as Hlow.
  replace (Z.to_nat limit + 2)%nat with (S (S (Z.to_nat limit))) in Hall by lia.
  lia.
Qed.

(** [list(fibonacci_generator(limit))] is [F 0, F 1, ..., F (k-1)]: every
    Fibonacci number up to [limit], in order, and the next one exceeds [limit]
    (so a negative [limit] yields nothing). *)
Theorem fibonacci_generator_spec (limit : Z) :
  exists k, fibonacci_generator limit = map fib (seq 0 k) /\
    (forall i, (i < k)%nat -> (fib i <= limit)%Z) /\ (limit < fib k)%Z.
Proof. apply fib_loop_complete. lia. Qed.

(** The [while] loop of [fibonacci_generator] stops by itself within
    [limit + 3] iterations: letting it run longer yields the same values. *)
Theorem fibonacci_generator_terminates (limit : Z) (fuel : nat) :
  (Z.to_nat limit + 3 <= fuel)%nat ->
  fib_loop fuel limit 0 1 = fibonacci_generator limit.
Proof.
  intros Hfuel.
  destruct (fib_loop_complete limit fuel Hfuel) as (k1 & H1 & Hall1 & Hstop1).
  destruct (fib_loop_complete limit (Z.to_nat limit + 3) ltac:(lia)) as (k2 & H2 & Hall2 & Hstop2).
  unfold fibonacci_generator. rewrite H1, H2.
  destruct (Nat.lt_trichotomy k1 k2) as [Hlt|[->|Hgt]]; [|reflexivity|].
  - specialize (Hall2 k1 Hlt). lia.
  - specialize (Hall1 k2 Hgt). lia.
Qed.

(** ** Further properties: [Example3] and [main] *)

(** [Example3(bar)] raises [TypeError] for every integer [bar]: both branches
    of [__init__] return a value other than [None]. *)
Theorem Example3_never_constructed (bar : Z) : Example3_new bar = None.
Proof. unfold Example3_new, Example3_init. destruct (bar =? 0)%Z; reflexivity. Qed.

Lemma py_lt_int_list_refl (zs : list Z) :
  py_lt (PList (map PInt zs)) (PList (map PInt zs)) = Some false.
Proof.
  induction zs as [|z zs IH]; [reflexivity|].
  simpl in *. rewrite Z.eqb_refl. exact IH.
Qed.

(** [min(numbers_with_sign, numbers_with_sign, len(fib_numbers))] in [main]
    raises [TypeError] whatever the numbers are (an int is compared with a
    list), so [main] never gets past that line. *)
Theorem main_min_raises (big_list : list Z) (fib_limit : Z) :
  py_min (main_min_args big_list fib_limit) = None.
Proof.
  unfold main_min_args, py_min. cbv zeta. cbn [fold_left].
  rewrite py_lt_int_list_refl. reflexivity.
Qed.

(** ** The further properties at concrete inputs *)


Lemma text_rule_reverse_twice_witness :
  str_contains "error" (lower "hello") = false /\ str_contains "success" (lower "hello") = false /\
  str_contains "error" (lower (str_reverse "hello")) = false /\
  str_contains "success" (lower (str_reverse "hello")) = false /\
  _another_internal_helper (_another_internal_helper "hello") = "hello".
Proof.
  split; [reflexivity|]. split; [reflexivity|]. split; [reflexivity|]. split; [reflexivity|].
  apply text_rule_reverse_twice; reflexivity.
Defined.

Lemma util_process_prefix_witness :
  (util_value (mkUtility "UtilityTest" 10) <= util_value (mkUtility "UtilityTest" 20))%Z /\
  exists rest, util_process (mkUtility "UtilityTest" 20) =
               util_process (mkUtility "UtilityTest" 10) ++ rest.
Proof.
  assert (Hle : (util_value (mkUtility "UtilityTest" 10) <=
                 util_value (mkUtility "UtilityTest" 20))%Z) by (simpl; lia).
  split; [exact Hle|]. exact (util_process_prefix _ _ Hle).
Defined.

Lemma create_users_result_witness :
  create_users ["Charlie"; "Diana"; "Eve"] 20 =
    Some [mkUser "Charlie" 20; mkUser "Diana" 21; mkUser "Eve" 22] /\
  map username [mkUser "Charlie" 20; mkUser "Diana" 21; mkUser "Eve" 22] =
    ["Charlie"; "Diana"; "Eve"] /\
  map age [mkUser "Charlie" 20; mkUser "Diana" 21; mkUser "Eve" 22] =
    map (fun i => (20 + Z.of_nat i)%Z) (seq 0 3).
Proof.
  assert (Hrun : create_users ["Charlie"; "Diana"; "Eve"] 20 =
                 Some [mkUser "Charlie" 20; mkUser "Diana" 21; mkUser "Eve" 22])
    by reflexivity.
  split; [exact Hrun|]. exact (create_users_result _ _ _ Hrun).
Defined.

Lemma fibonacci_generator_terminates_witness :
  (Z.to_nat 50 + 3 <= 100)%nat /\ fib_loop 100 50 0 1 = fibonacci_generator 50.
Proof.
  assert (Hf : (Z.to_nat 50 + 3 <= 100)%nat) by (simpl; lia).
  split; [exact Hf|]. exact (fibonacci_generator_terminates 50 100 Hf).
Defined.
